(** * docs/source/conf.py of rules_testing: the Sphinx configuration module

    The file is a Python module made of sixteen top-level assignments of
    literal displays.  Sphinx executes the module in a namespace it
    prepares and afterwards reads the bindings it finds there.

    The development embeds
    - the abstract syntax of the Python statements the properties speak
      about (assignments and the other simple statements, the compound
      statements, calls and name references),
    - the values a literal display denotes,
    - the evaluation of Python's simple statements in a namespace, with
      the exceptions they raise,
    - the module [conf_py] itself, statement by statement. *)

From Stdlib Require Import List Bool.
From stdpp Require Import base strings gmap fin_maps.
Import ListNotations.
#[local] Set Warnings "-register-all".
Open Scope string_scope.
Open Scope list_scope.

(** ** Syntax *)

Module Py.

(** Expressions: string literals (single and double quoted literals are
    the same [str]), list displays, dict displays, name references and
    calls. *)
Inductive expr : Type :=
| EStr (s : string)
| EList (items : list expr)
| EDict (items : list (expr * expr))
| EName (x : string)
| ECall (f : expr) (args : list expr).

(** Statements.  The first six are simple statements, the last five are
    compound statements. *)
Inductive stmt : Type :=
| SAssign (x : string) (e : expr)
| SExpr (e : expr)
| SDel (x : string)
| SAssert (c : expr)
| SRaise (e : expr)
| SPass
| SIf (c : expr) (body orelse : list stmt)
| SFor (x : string) (iter : expr) (body : list stmt)
| SWhile (c : expr) (body : list stmt)
| SDef (f : string) (params : list string) (body : list stmt)
| STry (body handler : list stmt).

(** A module is the sequence of its top-level statements. *)
Definition module : Type := list stmt.

(** ** Values *)

(** Only [str] objects are hashable among the values below, so the keys
    of a dict are strings; a dict keeps its items in insertion order. *)
Inductive value : Type :=
| VStr (s : string)
| VList (items : list value)
| VDict (items : list (string * value)).

Inductive exn : Type :=
| NameError (x : string)
| TypeError
| AssertionError.

(** The result of evaluating a piece of syntax: a result, a raised
    exception, or [Unsupported] when the syntax lies outside the
    evaluated fragment (compound statements and calls). *)
Inductive outcome (A : Type) : Type :=
| Done (a : A)
| Raise (e : exn)
| Unsupported.
Arguments Done {A} a.
Arguments Raise {A} e.
Arguments Unsupported {A}.

Definition bind {A B : Type} (o : outcome A) (k : A -> outcome B) : outcome B :=
  match o with
  | Done a => k a
  | Raise e => Raise e
  | Unsupported => Unsupported
  end.

Notation "x <- o ;; k" := (bind o (fun x => k))
  (at level 100, o at next level, right associativity).

(** The namespace the module is executed in. *)
Abbreviation namespace := (gmap string value).

(** ** Evaluation *)

(** [d[k] = v]: an existing key keeps its position, a new one goes last. *)
Fixpoint dict_set (d : list (string * value)) (k : string) (v : value)
  : list (string * value) :=
  match d with
  | [] => [(k, v)]
  | (k', v') :: d' =>
      if String.eqb k' k then (k', v) :: d' else (k', v') :: dict_set d' k v
  end.

(** Building a dict from evaluated items; a key that is not a string is
    unhashable. *)
Fixpoint build_dict (acc : list (string * value)) (kvs : list (value * value))
  : outcome value :=
  match kvs with
  | [] => Done (VDict acc)
  | (VStr k, v) :: kvs' => build_dict (dict_set acc k v) kvs'
  | _ :: _ => Raise TypeError
  end.

Definition truthy (v : value) : bool :=
  match v with
  | VStr "" | VList [] | VDict [] => false
  | _ => true
  end.

(** The items of a display are evaluated from left to right; the first
    one that does not complete decides the outcome. *)
Section traverse.
Context {A B : Type} (f : A -> outcome B).

Fixpoint traverse (l : list A) : outcome (list B) :=
  match l with
  | [] => Done []
  | a :: l' => b <- f a ;; bs <- traverse l' ;; Done (b :: bs)
  end.
End traverse.

(** A dict display evaluates each key before its value and builds the
    dict once all items are evaluated; a name is looked up in the
    namespace. *)
Fixpoint eval (ns : namespace) (e : expr) {struct e} : outcome value :=
  match e with
  | EStr s => Done (VStr s)
  | EList items => vs <- traverse (eval ns) items ;; Done (VList vs)
  | EDict items =>
      kvs <- traverse (fun kv : expr * expr =>
                         let (ek, ev) := kv in
                         k <- eval ns ek ;; v <- eval ns ev ;; Done (k, v))
                      items ;;
      build_dict [] kvs
  | EName x =>
      match ns !! x with
      | Some v => Done v
      | None => Raise (NameError x)
      end
  | ECall _ _ => Unsupported
  end.

(** One statement. *)
Definition exec_stmt (ns : namespace) (s : stmt) : outcome namespace :=
  match s with
  | SAssign x e => v <- eval ns e ;; Done (<[x := v]> ns)
  | SExpr e => _ <- eval ns e ;; Done ns
  | SDel x =>
      match ns !! x with
      | Some _ => Done (delete x ns)
      | None => Raise (NameError x)
      end
  | SAssert c =>
      v <- eval ns c ;; if truthy v then Done ns else Raise AssertionError
  | SRaise e => _ <- eval ns e ;; Raise TypeError
  | SPass => Done ns
  | SIf _ _ _ | SFor _ _ _ | SWhile _ _ | SDef _ _ _ | STry _ _ => Unsupported
  end.

(** A module body: the statements in order, stopping at the first one
    that does not complete. *)
Fixpoint exec (ns : namespace) (m : module) : outcome namespace :=
  match m with
  | [] => Done ns
  | s :: m' => ns' <- exec_stmt ns s ;; exec ns' m'
  end.

(** ** Syntactic analyses *)

(** The names an expression reads. *)
Fixpoint expr_names (e : expr) : list string :=
  match e with
  | EStr _ => []
  | EList items => flat_map expr_names items
  | EDict items =>
      flat_map (fun kv : expr * expr =>
                  let (ek, ev) := kv in expr_names ek ++ expr_names ev) items
  | EName x => [x]
  | ECall f args => expr_names f ++ flat_map expr_names args
  end.

(** Whether an expression contains a call. *)
Fixpoint has_call (e : expr) : bool :=
  match e with
  | EStr _ | EName _ => false
  | EList items => existsb has_call items
  | EDict items =>
      existsb (fun kv : expr * expr =>
                 let (ek, ev) := kv in has_call ek || has_call ev) items
  | ECall _ _ => true
  end.

(** A literal: a string literal, a list display of literals, or a dict
    display whose keys are string literals and whose values are
    literals. *)
Fixpoint literal (e : expr) : bool :=
  match e with
  | EStr _ => true
  | EList items => forallb literal items
  | EDict items =>
      forallb (fun kv : expr * expr =>
                 let (ek, ev) := kv in
                 match ek with EStr _ => literal ev | _ => false end) items
  | EName _ | ECall _ _ => false
  end.

Definition is_str_literal (e : expr) : bool :=
  match e with EStr _ => true | _ => false end.

(** The three shapes of a configuration value: a string literal, a
    literal mapping, a list display of string literals. *)
Definition config_literal (e : expr) : bool :=
  match e with
  | EStr _ => true
  | EDict _ => literal e
  | EList items => forallb is_str_literal items
  | EName _ | ECall _ _ => false
  end.

(** The expressions a statement evaluates itself (not those of the
    statements nested in it). *)
Definition stmt_exprs (s : stmt) : list expr :=
  match s with
  | SAssign _ e | SExpr e | SAssert e | SRaise e => [e]
  | SIf c _ _ | SWhile c _ => [c]
  | SFor _ iter _ => [iter]
  | SDel _ | SPass | SDef _ _ _ | STry _ _ => []
  end.

(** The statements nested in a statement. *)
Definition stmt_blocks (s : stmt) : list stmt :=
  match s with
  | SIf _ body orelse => body ++ orelse
  | SFor _ _ body | SWhile _ body | SDef _ _ body => body
  | STry body handler => body ++ handler
  | SAssign _ _ | SExpr _ | SDel _ | SAssert _ | SRaise _ | SPass => []
  end.

(** Conditionals, loops, function definitions and handlers. *)
Definition compound (s : stmt) : bool :=
  match s with
  | SIf _ _ _ | SFor _ _ _ | SWhile _ _ | SDef _ _ _ | STry _ _ => true
  | SAssign _ _ | SExpr _ | SDel _ | SAssert _ | SRaise _ | SPass => false
  end.

(** Statements that raise, check or handle an error. *)
Definition error_logic (s : stmt) : bool :=
  match s with
  | SAssert _ | SRaise _ | STry _ _ => true
  | _ => false
  end.

(** The names a statement binds in the namespace it runs in: the target
    of an assignment, the variable of a loop, the name of a function,
    and what the nested statements bind.  The body of a function runs in
    a namespace of its own. *)
Fixpoint targets (s : stmt) : list string :=
  match s with
  | SAssign x _ => [x]
  | SFor x _ body => x :: flat_map targets body
  | SIf _ body orelse => flat_map targets body ++ flat_map targets orelse
  | SWhile _ body => flat_map targets body
  | SDef f _ _ => [f]
  | STry body handler => flat_map targets body ++ flat_map targets handler
  | SExpr _ | SDel _ | SAssert _ | SRaise _ | SPass => []
  end.

Definition module_targets (m : module) : list string := flat_map targets m.

(** The names a statement unbinds. *)
Fixpoint deletes (s : stmt) : list string :=
  match s with
  | SDel x => [x]
  | SFor _ _ body | SWhile _ body => flat_map deletes body
  | SIf _ body orelse | STry body orelse =>
      flat_map deletes body ++ flat_map deletes orelse
  | SAssign _ _ | SExpr _ | SAssert _ | SRaise _ | SPass | SDef _ _ _ => []
  end.

(** The number of assignment statements of a module with target [x]. *)
Definition assignments_to (x : string) (m : module) : nat :=
  length (List.filter (fun s => match s with
                                | SAssign y _ => String.eqb x y
                                | _ => false
                                end) m).

(** A module of literal assignments: each statement is an assignment
    whose right-hand side is a literal. *)
Definition literal_assignment (s : stmt) : bool :=
  match s with
  | SAssign _ e => literal e
  | _ => false
  end.

Definition literal_module (m : module) : bool := forallb literal_assignment m.

(** Modules whose right-hand sides all have one of the three shapes of
    a configuration value. *)
Definition config_module (m : module) : bool :=
  forallb (fun s => match s with
                    | SAssign _ e => config_literal e
                    | _ => false
                    end) m.

(** ** Shapes of values *)

Definition is_str (v : value) : bool :=
  match v with VStr _ => true | _ => false end.

Definition is_mapping (v : value) : bool :=
  match v with VDict _ => true | _ => false end.

Definition is_str_sequence (v : value) : bool :=
  match v with VList items => forallb is_str items | _ => false end.

(** ** Namespaces as lists of bindings *)

(** Binding a list of names one after the other. *)
Definition bind_all (bs : list (string * value)) (ns : namespace) : namespace :=
  fold_left (fun acc b => <[b.1 := b.2]> acc) bs ns.

(** The value the last binding of [x] in [bs] gives it. *)
Fixpoint last_binding (x : string) (bs : list (string * value)) : option value :=
  match bs with
  | [] => None
  | (y, v) :: bs' =>
      match last_binding x bs' with
      | Some w => Some w
      | None => if String.eqb y x then Some v else None
      end
  end.

(** The bindings a module of literal assignments makes: each target with
    the value of its right-hand side. *)
Definition literal_bindings (m : module) : list (string * value) :=
  flat_map (fun s => match s with
                     | SAssign x e =>
                         match eval ∅ e with
                         | Done v => [(x, v)]
                         | _ => []
                         end
                     | _ => []
                     end) m.

End Py.

Import Py.

(** ** The module docs/source/conf.py *)

Definition conf_py : module :=
  [ SAssign "project" (EStr "rules_testing");
    SAssign "copyright" (EStr "2023, The Bazel Authors");
    SAssign "author" (EStr "Bazel");
    SAssign "release" (EStr "0.1");
    SAssign "version" (EStr "0.1.0");
    SAssign "extensions"
      (EList [ EStr "sphinx.ext.duration";
               EStr "sphinx.ext.doctest";
               EStr "sphinx.ext.autodoc";
               EStr "sphinx.ext.autosummary";
               EStr "sphinx.ext.intersphinx";
               EStr "sphinx.ext.autosectionlabel";
               EStr "myst_parser";
               EStr "sphinx_rtd_theme" ]);
    SAssign "intersphinx_mapping" (EDict []);
    SAssign "intersphinx_disabled_domains" (EList [EStr "std"]);
    SAssign "intersphinx_disabled_reftypes" (EList [EStr "*"]);
    SAssign "templates_path" (EList [EStr "_templates"]);
    SAssign "html_theme" (EStr "sphinx_rtd_theme");
    SAssign "html_theme_options" (EDict []);
    SAssign "myst_enable_extensions"
      (EList [ EStr "fieldlist";
               EStr "attrs_block";
               EStr "attrs_inline";
               EStr "colon_fence";
               EStr "deflist" ]);
    SAssign "html_static_path" (EList [EStr "_static"]);
    SAssign "html_css_files" (EList [EStr "css/custom.css"]);
    SAssign "epub_show_urls" (EStr "footnote") ].

(** * Properties of the evaluation *)

(** ** Induction over expressions *)

Section expr_induction.
Variable P : expr -> Prop.
Hypothesis HStr : forall s, P (EStr s).
Hypothesis HList : forall items, Forall P items -> P (EList items).
Hypothesis HDict :
  forall items, Forall (fun kv => P kv.1 /\ P kv.2) items -> P (EDict items).
Hypothesis HName : forall x, P (EName x).
Hypothesis HCall : forall f args, P f -> Forall P args -> P (ECall f args).

Fixpoint expr_nested_ind (e : expr) : P e :=
  match e with
  | EStr s => HStr s
  | EList items =>
      HList items
        ((fix go (l : list expr) : Forall P l :=
            match l with
            | [] => @List.Forall_nil _ P
            | e' :: l' => @List.Forall_cons _ P e' l' (expr_nested_ind e') (go l')
            end) items)
  | EDict items =>
      HDict items
        ((fix go (l : list (expr * expr))
            : Forall (fun kv => P kv.1 /\ P kv.2) l :=
            match l with
            | [] => @List.Forall_nil _ _
            | kv :: l' =>
                @List.Forall_cons _ _ kv l'
                  (conj (expr_nested_ind kv.1) (expr_nested_ind kv.2))
                  (go l')
            end) items)
  | EName x => HName x
  | ECall f args =>
      HCall f args (expr_nested_ind f)
        ((fix go (l : list expr) : Forall P l :=
            match l with
            | [] => @List.Forall_nil _ P
            | e' :: l' => @List.Forall_cons _ P e' l' (expr_nested_ind e') (go l')
            end) args)
  end.
End expr_induction.

(** ** Literals *)

Section literals.

Lemma build_dict_strs acc kvs :
  Forall (fun kv : value * value => is_str kv.1 = true) kvs ->
  exists d, build_dict acc kvs = Done (VDict d).
Proof.
  intros H. revert acc.
  induction H as [|[k v] kvs Hk _ IH]; intros acc; simpl.
  - eauto.
  - destruct k; simpl in Hk; try discriminate. apply IH.
Qed.

Lemma build_dict_mapping acc kvs v :
  build_dict acc kvs = Done v -> is_mapping v = true.
Proof.
  revert acc. induction kvs as [|[k w] kvs IH]; intros acc; simpl.
  - intros [= <-]. reflexivity.
  - destruct k; try discriminate. apply IH.
Qed.

(** A literal evaluates to the same value in every namespace. *)
Lemma eval_literal e :
  literal e = true -> exists v, forall ns, eval ns e = Done v.
Proof.
  induction e as [s|items IH|items IH|x|f args _ _] using expr_nested_ind;
    simpl; intros Hlit; try discriminate.
  - eauto.
  - assert (exists vs, forall ns, traverse (eval ns) items = Done vs)
      as [vs Hvs].
    { induction IH as [|e items He _ IHitems]; simpl in *.
      - eauto.
      - apply andb_prop in Hlit as [H1 H2].
        destruct (He H1) as [v Hv], (IHitems H2) as [vs Hvs].
        exists (v :: vs). intros ns. rewrite Hv, Hvs. reflexivity. }
    exists (VList vs). intros ns. rewrite Hvs. reflexivity.
  - assert (exists kvs,
               Forall (fun kv : value * value => is_str kv.1 = true) kvs /\
               forall ns,
                 traverse (fun kv : expr * expr =>
                             let (ek, ev) := kv in
                             k <- eval ns ek ;; v <- eval ns ev ;; Done (k, v))
                          items = Done kvs)
      as (kvs & Hstr & Hkvs).
    { induction IH as [|[ek ev] items [_ Hev] _ IHitems]; simpl in *.
      - exists []. split; [constructor | reflexivity].
      - apply andb_prop in Hlit as [H1 H2].
        destruct ek as [k| | | |]; try discriminate.
        destruct (Hev H1) as [v Hv], (IHitems H2) as (kvs & Hstr & Hkvs).
        exists ((VStr k, v) :: kvs). split.
        + constructor; [reflexivity | assumption].
        + intros ns. rewrite Hv, Hkvs. reflexivity. }
    destruct (build_dict_strs [] kvs Hstr) as [d Hd].
    exists (VDict d). intros ns. rewrite Hkvs. simpl. exact Hd.
Qed.

(** A literal reads no name and makes no call. *)
Lemma literal_closed e :
  literal e = true -> expr_names e = [] /\ has_call e = false.
Proof.
  induction e as [s|items IH|items IH|x|f args _ _] using expr_nested_ind;
    simpl; intros Hlit; try discriminate.
  - auto.
  - induction IH as [|e items He _ IHitems]; simpl in *; [auto|].
    apply andb_prop in Hlit as [H1 H2].
    destruct (He H1) as [-> ->], (IHitems H2) as [-> ->]. auto.
  - induction IH as [|[ek ev] items [_ Hev] _ IHitems]; simpl in *; [auto|].
    apply andb_prop in Hlit as [H1 H2].
    destruct ek as [k| | | |]; try discriminate.
    destruct (Hev H1) as [-> ->], (IHitems H2) as [-> ->]. auto.
Qed.

Lemma config_literal_literal e : config_literal e = true -> literal e = true.
Proof.
  destruct e as [s|items|items|x|f args]; simpl; try done.
  induction items as [|e items IH]; simpl; [done|].
  intros [H1 H2]%andb_prop. destruct e; try discriminate.
  simpl. auto.
Qed.

(** The value of a configuration literal has one of the three shapes. *)
Lemma config_literal_shape ns e v :
  config_literal e = true -> eval ns e = Done v ->
  is_str v || is_mapping v || is_str_sequence v = true.
Proof.
  destruct e as [s|items|items|x|f args]; simpl; try discriminate.
  - intros _ [= <-]. reflexivity.
  - intros Hstr.
    assert (forall vs, traverse (eval ns) items = Done vs ->
                       forallb is_str vs = true) as Hvs.
    { induction items as [|e items IH]; simpl in *.
      - intros vs [= <-]. reflexivity.
      - apply andb_prop in Hstr as [H1 H2].
        destruct e; try discriminate. simpl.
        destruct (traverse (eval ns) items) as [vs'| |]; simpl;
          try discriminate.
        intros vs [= <-]. simpl. auto. }
    destruct (traverse (eval ns) items) as [vs| |]; simpl; try discriminate.
    intros [= <-]. simpl. exact (Hvs vs eq_refl).
  - intros _.
    destruct (traverse _ items) as [kvs| |]; simpl; try discriminate.
    intros H%build_dict_mapping. rewrite H.
    destruct (is_str v); reflexivity.
Qed.

End literals.

(** ** Namespaces *)

Section namespaces.

Lemma bind_all_cons y v bs (ns : namespace) :
  bind_all ((y, v) :: bs) ns = bind_all bs (<[y := v]> ns).
Proof. reflexivity. Qed.

(** Looking a name up after a run of bindings: its last binding wins,
    and a name the run does not bind keeps what it had. *)
Lemma lookup_bind_all bs (ns : namespace) x :
  bind_all bs ns !! x =
    match last_binding x bs with
    | Some v => Some v
    | None => ns !! x
    end.
Proof.
  revert ns. induction bs as [|[y v] bs IH]; intros ns; [reflexivity|].
  rewrite bind_all_cons, IH. simpl.
  destruct (last_binding x bs) as [w|]; [reflexivity|].
  destruct (String.eqb_spec y x) as [->|Hne].
  - apply lookup_insert_eq.
  - apply lookup_insert_ne, Hne.
Qed.

Lemma last_binding_In x bs v : last_binding x bs = Some v -> In (x, v) bs.
Proof.
  induction bs as [|[y w] bs IH]; simpl; [discriminate|].
  destruct (last_binding x bs) as [u|].
  - intros [= <-]. right. apply IH. reflexivity.
  - destruct (String.eqb_spec y x) as [->|_]; [|discriminate].
    intros [= <-]. left. reflexivity.
Qed.

Lemma last_binding_bound x bs :
  In x (map fst bs) -> exists v, last_binding x bs = Some v.
Proof.
  induction bs as [|[y w] bs IH]; simpl; [tauto|].
  intros [->|Hin].
  - destruct (last_binding x bs) as [u|]; [eauto|].
    rewrite String.eqb_refl. eauto.
  - destruct (IH Hin) as [u ->]. eauto.
Qed.

End namespaces.

(** ** Statements and modules *)

Section modules.

(** A simple statement changes the namespace only at the names it binds
    or unbinds. *)
Lemma exec_stmt_frame ns s ns' y :
  exec_stmt ns s = Done ns' ->
  ~ In y (targets s) -> ~ In y (deletes s) -> ns' !! y = ns !! y.
Proof.
  destruct s as [x e|e|x|c|e| | | | | |]; simpl; try discriminate.
  - destruct (eval ns e); simpl; try discriminate.
    intros [= <-] Hy _. apply lookup_insert_ne. tauto.
  - destruct (eval ns e); simpl; try discriminate.
    intros [= <-] _ _. reflexivity.
  - destruct (ns !! x); try discriminate.
    intros [= <-] _ Hy. apply lookup_delete_ne. tauto.
  - destruct (eval ns c) as [v| |]; simpl; try discriminate.
    destruct (truthy v); try discriminate.
    intros [= <-] _ _. reflexivity.
  - destruct (eval ns e); simpl; discriminate.
  - intros [= <-] _ _. reflexivity.
Qed.

Lemma exec_app ns m1 m2 :
  exec ns (m1 ++ m2) = (ns' <- exec ns m1 ;; exec ns' m2).
Proof.
  revert ns. induction m1 as [|s m1 IH]; intros ns; simpl; [reflexivity|].
  destruct (exec_stmt ns s); simpl; auto.
Qed.

Lemma module_targets_app m1 m2 :
  module_targets (m1 ++ m2) = module_targets m1 ++ module_targets m2.
Proof. apply flat_map_app. Qed.

(** A module of literal assignments completes in every namespace, and
    what it does there is to make its bindings in order. *)
Lemma exec_literal_module m :
  literal_module m = true ->
  forall ns, exec ns m = Done (bind_all (literal_bindings m) ns).
Proof.
  induction m as [|s m IH]; simpl; intros Hlit ns; [reflexivity|].
  apply andb_prop in Hlit as [Hs Hm].
  destruct s as [x e| | | | | | | | | |]; try discriminate.
  simpl in Hs. destruct (eval_literal e Hs) as [v Hv].
  simpl. rewrite (Hv ns), (Hv ∅). simpl.
  rewrite (IH Hm). reflexivity.
Qed.

Lemma literal_bindings_targets m :
  literal_module m = true -> map fst (literal_bindings m) = module_targets m.
Proof.
  induction m as [|s m IH]; simpl; intros Hlit; [reflexivity|].
  apply andb_prop in Hlit as [Hs Hm].
  destruct s as [x e| | | | | | | | | |]; try discriminate.
  simpl in Hs. destruct (eval_literal e Hs) as [v Hv].
  rewrite (Hv ∅). simpl. rewrite (IH Hm). reflexivity.
Qed.

(** No statement of a module of literal assignments is compound, reads
    a name, calls, unbinds a name or deals with errors. *)
Lemma literal_module_straight m :
  literal_module m = true ->
  Forall (fun s => compound s = false /\ error_logic s = false /\
                   stmt_blocks s = [] /\ deletes s = [] /\
                   Forall (fun e => has_call e = false /\ expr_names e = [])
                          (stmt_exprs s)) m.
Proof.
  induction m as [|s m IH]; simpl; intros Hlit; constructor.
  - apply andb_prop in Hlit as [Hs _].
    destruct s as [x e| | | | | | | | | |]; try discriminate.
    simpl in *. destruct (literal_closed e Hs) as [Hn Hc].
    repeat split; auto.
  - apply IH. apply andb_prop in Hlit. tauto.
Qed.

(** The bindings of a module of literal assignments do not depend on the
    namespace it is executed in. *)
Lemma literal_module_independent m ns1 ns2 out1 out2 x :
  literal_module m = true ->
  exec ns1 m = Done out1 -> exec ns2 m = Done out2 ->
  In x (module_targets m) -> out1 !! x = out2 !! x.
Proof.
  intros Hlit H1 H2 Hx.
  rewrite (exec_literal_module m Hlit) in H1, H2.
  injection H1 as <-. injection H2 as <-.
  rewrite !lookup_bind_all.
  rewrite <- (literal_bindings_targets m Hlit) in Hx.
  destruct (last_binding_bound _ _ Hx) as [v ->]. reflexivity.
Qed.

Lemma config_module_literal m :
  config_module m = true -> literal_module m = true.
Proof.
  induction m as [|s m IH]; simpl; [reflexivity|].
  intros [Hs Hm]%andb_prop.
  destruct s as [x e| | | | | | | | | |]; try discriminate.
  simpl. rewrite (config_literal_literal e Hs). auto.
Qed.

Lemma config_module_shapes m :
  config_module m = true ->
  Forall (fun b : string * value =>
            is_str b.2 || is_mapping b.2 || is_str_sequence b.2 = true)
         (literal_bindings m).
Proof.
  induction m as [|s m IH]; simpl; intros Hm; [constructor|].
  apply andb_prop in Hm as [Hs Hm].
  destruct s as [x e| | | | | | | | | |]; try discriminate.
  apply Forall_app. split; [|auto].
  destruct (eval ∅ e) as [v| |] eqn:Hv; constructor; [|constructor].
  simpl. exact (config_literal_shape ∅ e v Hs Hv).
Qed.

End modules.

(** ** The evaluator on small modules *)

Example exec_unbound_name :
  exec ∅ [SAssign "a" (EStr "x"); SAssign "b" (EName "c")]
  = Raise (NameError "c").
Proof. reflexivity. Qed.

Example exec_alias :
  exists ns', exec ∅ [SAssign "a" (EStr "x"); SAssign "b" (EName "a")]
              = Done ns' /\ ns' !! "b" = Some (VStr "x").
Proof. eexists. split; reflexivity. Qed.

Example exec_rebinding :
  exists ns', exec ∅ [SAssign "a" (EStr "x"); SAssign "a" (EStr "y")]
              = Done ns' /\ ns' !! "a" = Some (VStr "y").
Proof. eexists. split; reflexivity. Qed.

Example eval_unhashable_key :
  eval ∅ (EDict [(EList [], EStr "x")]) = Raise TypeError.
Proof. reflexivity. Qed.

Example eval_repeated_key :
  eval ∅ (EDict [(EStr "k", EStr "1"); (EStr "j", EStr "2");
                 (EStr "k", EStr "3")])
  = Done (VDict [("k", VStr "3"); ("j", VStr "2")]).
Proof. reflexivity. Qed.

Example exec_del_unbound : exec ∅ [SDel "a"] = Raise (NameError "a").
Proof. reflexivity. Qed.

Example exec_assert_empty :
  exec ∅ [SAssert (EList [])] = Raise AssertionError.
Proof. reflexivity. Qed.

Example exec_conditional :
  exec ∅ [SIf (EStr "x") [SPass] []] = Unsupported.
Proof. reflexivity. Qed.

Example exec_call : exec ∅ [SExpr (ECall (EName "f") [])] = Unsupported.
Proof. reflexivity. Qed.

(** * The configuration module *)

Section conf.

Lemma conf_py_config : config_module conf_py = true.
Proof. reflexivity. Qed.

Lemma conf_py_literal : literal_module conf_py = true.
Proof. apply config_module_literal, conf_py_config. Qed.

Lemma conf_py_exec ns :
  exec ns conf_py = Done (bind_all (literal_bindings conf_py) ns).
Proof. apply exec_literal_module, conf_py_literal. Qed.

Lemma conf_py_done ns ns' :
  exec ns conf_py = Done ns' ->
  ns' = bind_all (literal_bindings conf_py) ns.
Proof. rewrite conf_py_exec. congruence. Qed.

(** The binding the module leaves for a name it assigns. *)
Lemma conf_py_lookup x v :
  last_binding x (literal_bindings conf_py) = Some v ->
  forall ns, bind_all (literal_bindings conf_py) ns !! x = Some v.
Proof. intros H ns. rewrite lookup_bind_all, H. reflexivity. Qed.

Lemma conf_py_targets :
  module_targets conf_py =
    [ "project"; "copyright"; "author"; "release"; "version"; "extensions";
      "intersphinx_mapping"; "intersphinx_disabled_domains";
      "intersphinx_disabled_reftypes"; "templates_path"; "html_theme";
      "html_theme_options"; "myst_enable_extensions"; "html_static_path";
      "html_css_files"; "epub_show_urls" ].
Proof. reflexivity. Qed.

Lemma conf_py_targets_NoDup : NoDup (module_targets conf_py).
Proof. rewrite conf_py_targets. apply (bool_decide_unpack _). vm_compute. exact I. Qed.

End conf.

Ltac conf_lookup := apply conf_py_lookup; vm_compute; reflexivity.

(** ** Shape of the module *)

(** C1.  Every statement of conf.py is an assignment of a string literal,
    a literal mapping or a list display of string literals; no statement
    is a conditional, a loop, a function definition or a handler, none
    nests a statement, and no right-hand side contains a call or reads a
    name.  In every namespace the module completes, and each name it
    assigns is then bound to a string, a mapping or a list of strings. *)
Theorem conf_py_flat_literals :
  Forall (fun s => exists x e, s = SAssign x e /\ config_literal e = true)
         conf_py /\
  Forall (fun s => compound s = false /\ stmt_blocks s = [] /\
                   Forall (fun e => has_call e = false /\ expr_names e = [])
                          (stmt_exprs s)) conf_py /\
  forall ns, exists ns',
    exec ns conf_py = Done ns' /\
    forall x, In x (module_targets conf_py) ->
      exists v, ns' !! x = Some v /\
                is_str v || is_mapping v || is_str_sequence v = true.
Proof.
  split; [|split].
  - repeat constructor; eexists _, _; split; reflexivity.
  - pose proof (literal_module_straight _ conf_py_literal) as Hall.
    eapply List.Forall_impl; [|exact Hall].
    simpl. intros s (Hc & _ & Hb & _ & He). auto.
  - intros ns. eexists. split; [apply conf_py_exec|].
    intros x Hx. rewrite lookup_bind_all.
    rewrite <- (literal_bindings_targets _ conf_py_literal) in Hx.
    destruct (last_binding_bound _ _ Hx) as [v Hv]. rewrite Hv.
    exists v. split; [reflexivity|].
    apply last_binding_In in Hv.
    pose proof (config_module_shapes _ conf_py_config) as Hall.
    rewrite List.Forall_forall in Hall. exact (Hall _ Hv).
Qed.

(** C2, as stated, fails: conf.py binds [extensions] to a list, which is
    neither a string nor a mapping. *)
Lemma conf_py_extensions_not_str_or_mapping :
  ~ (forall (ns ns' : namespace) x v,
        exec ns conf_py = Done ns' -> In x (module_targets conf_py) ->
        ns' !! x = Some v -> is_str v || is_mapping v = true).
Proof.
  intros H.
  specialize (H ∅ (bind_all (literal_bindings conf_py) ∅) "extensions"
                (VList [ VStr "sphinx.ext.duration"; VStr "sphinx.ext.doctest";
                         VStr "sphinx.ext.autodoc";
                         VStr "sphinx.ext.autosummary";
                         VStr "sphinx.ext.intersphinx";
                         VStr "sphinx.ext.autosectionlabel";
                         VStr "myst_parser"; VStr "sphinx_rtd_theme" ])
                (conf_py_exec ∅)).
  simpl in H. discriminate H.
  - tauto.
  - conf_lookup.
Qed.

(** C2, amended.  Every value conf.py binds a name to is a string, a
    mapping or a list of strings. *)
Theorem conf_py_values_str_mapping_or_str_sequence (ns ns' : namespace) x v :
  exec ns conf_py = Done ns' -> In x (module_targets conf_py) ->
  ns' !! x = Some v ->
  is_str v || is_mapping v || is_str_sequence v = true.
Proof.
  intros ->%conf_py_done Hx.
  rewrite lookup_bind_all.
  rewrite <- (literal_bindings_targets _ conf_py_literal) in Hx.
  destruct (last_binding_bound _ _ Hx) as [w Hw]. rewrite Hw.
  intros [= <-].
  apply last_binding_In in Hw.
  pose proof (config_module_shapes _ conf_py_config) as Hall.
  rewrite List.Forall_forall in Hall. exact (Hall _ Hw).
Qed.

Lemma conf_py_values_witness :
  exec ∅ conf_py = Done (bind_all (literal_bindings conf_py) ∅) /\
  In "html_css_files" (module_targets conf_py) /\
  bind_all (literal_bindings conf_py) ∅ !! "html_css_files"
    = Some (VList [VStr "css/custom.css"]) /\
  is_str (VList [VStr "css/custom.css"])
  || is_mapping (VList [VStr "css/custom.css"])
  || is_str_sequence (VList [VStr "css/custom.css"]) = true.
Proof.
  assert (H1 : exec ∅ conf_py = Done (bind_all (literal_bindings conf_py) ∅))
    by (vm_compute; reflexivity).
  assert (H2 : In "html_css_files" (module_targets conf_py))
    by (vm_compute; tauto).
  assert (H3 : bind_all (literal_bindings conf_py) ∅ !! "html_css_files"
               = Some (VList [VStr "css/custom.css"]))
    by (vm_compute; reflexivity).
  split; [exact H1|]. split; [exact H2|]. split; [exact H3|].
  exact (conf_py_values_str_mapping_or_str_sequence _ _ _ _ H1 H2 H3).
Defined.

(** ** Bindings are made once *)

(** C3.  Each name conf.py binds is the target of exactly one assignment
    of the file and no statement unbinds a name; and wherever the file is
    cut, the statement after the cut leaves every name bound before the
    cut with the value it had. *)
Theorem conf_py_single_assignment :
  (forall x, In x (module_targets conf_py) -> assignments_to x conf_py = 1) /\
  flat_map deletes conf_py = [] /\
  forall pre s post (ns ns1 ns2 : namespace) x,
    conf_py = pre ++ s :: post ->
    exec ns pre = Done ns1 -> exec_stmt ns1 s = Done ns2 ->
    In x (module_targets pre) -> ns2 !! x = ns1 !! x.
Proof.
  split; [|split].
  - intros x Hx. rewrite conf_py_targets in Hx. simpl in Hx.
    repeat (destruct Hx as [<-|Hx]; [reflexivity|]). destruct Hx.
  - reflexivity.
  - intros pre s post ns ns1 ns2 x Hcut _ Hs Hx.
    pose proof conf_py_targets_NoDup as Hnd.
    assert (Hdel : flat_map deletes conf_py = []) by reflexivity.
    rewrite Hcut in Hnd, Hdel.
    rewrite module_targets_app in Hnd.
    apply NoDup_app in Hnd as (_ & Hnd & _).
    rewrite flat_map_app in Hdel. apply app_eq_nil in Hdel as [_ Hdel].
    simpl in Hdel. apply app_eq_nil in Hdel as [Hdel _].
    apply (exec_stmt_frame ns1 s ns2 x Hs).
    + intros Hin. apply (Hnd x).
      * apply list_elem_of_In, Hx.
      * apply list_elem_of_In. change (In x (targets s ++ module_targets post)).
        apply in_or_app. left. exact Hin.
    + rewrite Hdel. simpl. tauto.
Qed.

Lemma conf_py_single_assignment_witness :
  let ns1 : namespace := <["project" := VStr "rules_testing"]> ∅ in
  let ns2 : namespace := <["copyright" := VStr "2023, The Bazel Authors"]> ns1 in
  ns2 !! "project" = ns1 !! "project".
Proof.
  intros ns1 ns2.
  destruct conf_py_single_assignment as (_ & _ & Hframe).
  apply (Hframe [SAssign "project" (EStr "rules_testing")]
                (SAssign "copyright" (EStr "2023, The Bazel Authors"))
                (skipn 2 conf_py) ∅ ns1 ns2 "project").
  - reflexivity.
  - reflexivity.
  - reflexivity.
  - simpl. tauto.
Defined.

(** ** The configured values *)

(** C4.  conf.py assigns [extensions] a list display, and in every
    namespace the module leaves [extensions] bound to the list of the
    eight strings below, in this order. *)
Theorem conf_py_extensions :
  In (SAssign "extensions"
        (EList [ EStr "sphinx.ext.duration"; EStr "sphinx.ext.doctest";
                 EStr "sphinx.ext.autodoc"; EStr "sphinx.ext.autosummary";
                 EStr "sphinx.ext.intersphinx";
                 EStr "sphinx.ext.autosectionlabel";
                 EStr "myst_parser"; EStr "sphinx_rtd_theme" ])) conf_py /\
  forall ns, exists ns',
    exec ns conf_py = Done ns' /\
    ns' !! "extensions" =
      Some (VList [ VStr "sphinx.ext.duration"; VStr "sphinx.ext.doctest";
                    VStr "sphinx.ext.autodoc"; VStr "sphinx.ext.autosummary";
                    VStr "sphinx.ext.intersphinx";
                    VStr "sphinx.ext.autosectionlabel";
                    VStr "myst_parser"; VStr "sphinx_rtd_theme" ]).
Proof.
  split.
  - simpl. tauto.
  - intros ns. eexists. split; [apply conf_py_exec | conf_lookup].
Qed.

(** C6.  In every namespace the module leaves [project] bound to
    'rules_testing', [release] to '0.1', [version] to '0.1.0',
    [extensions] to a list of strings, [intersphinx_mapping] to a mapping
    (the empty one) and [html_css_files] to the list ['css/custom.css']. *)
Theorem conf_py_entities :
  forall ns, exists ns' exts,
    exec ns conf_py = Done ns' /\
    ns' !! "project" = Some (VStr "rules_testing") /\
    ns' !! "release" = Some (VStr "0.1") /\
    ns' !! "version" = Some (VStr "0.1.0") /\
    ns' !! "extensions" = Some (VList exts) /\
    forallb is_str exts = true /\
    ns' !! "intersphinx_mapping" = Some (VDict []) /\
    ns' !! "html_css_files" = Some (VList [VStr "css/custom.css"]).
Proof.
  intros ns. eexists _, _. split; [apply conf_py_exec|].
  split; [conf_lookup|]. split; [conf_lookup|]. split; [conf_lookup|].
  split; [conf_lookup|]. split; [reflexivity|].
  split; conf_lookup.
Qed.

(** ** Evaluation cannot fail *)

(** C7.  In every namespace, the empty one included, conf.py runs to
    completion; each of its statements completes in every namespace; and
    none of them raises, asserts or handles an exception. *)
Theorem conf_py_never_raises :
  (forall ns, exists ns', exec ns conf_py = Done ns') /\
  (exists ns', exec ∅ conf_py = Done ns') /\
  Forall (fun s => forall ns, exists ns', exec_stmt ns s = Done ns') conf_py /\
  Forall (fun s => error_logic s = false) conf_py.
Proof.
  split; [|split; [|split]].
  - intros ns. eexists. apply conf_py_exec.
  - eexists. apply conf_py_exec.
  - pose proof conf_py_literal as Hlit. unfold literal_module in Hlit.
    rewrite forallb_forall in Hlit. apply List.Forall_forall.
    intros s Hs ns. specialize (Hlit s Hs).
    destruct s as [x e| | | | | | | | | |]; try discriminate.
    simpl in Hlit. destruct (eval_literal e Hlit) as [v Hv].
    exists (<[x := v]> ns). simpl. rewrite Hv. reflexivity.
  - pose proof (literal_module_straight _ conf_py_literal) as Hall.
    eapply List.Forall_impl; [|exact Hall].
    simpl. intros s (_ & He & _). exact He.
Qed.

(** ** Evaluation does not depend on the environment *)

(** C8.  Run in any two namespaces, conf.py completes in both and gives
    every name it assigns the same binding in both; none of its
    statements reads a name or makes a call. *)
Theorem conf_py_deterministic :
  (forall ns1 ns2, exists out1 out2,
      exec ns1 conf_py = Done out1 /\ exec ns2 conf_py = Done out2 /\
      forall x, In x (module_targets conf_py) ->
                is_Some (out1 !! x) /\ out1 !! x = out2 !! x) /\
  Forall (fun s => Forall (fun e => has_call e = false /\ expr_names e = [])
                          (stmt_exprs s)) conf_py.
Proof.
  split.
  - intros ns1 ns2. eexists _, _.
    split; [apply conf_py_exec|]. split; [apply conf_py_exec|].
    intros x Hx. split.
    + rewrite lookup_bind_all.
      rewrite <- (literal_bindings_targets _ conf_py_literal) in Hx.
      destruct (last_binding_bound _ _ Hx) as [v ->]. eauto.
    + apply (literal_module_independent conf_py ns1 ns2);
        auto using conf_py_literal, conf_py_exec.
  - pose proof (literal_module_straight _ conf_py_literal) as Hall.
    eapply List.Forall_impl; [|exact Hall].
    simpl. intros s (_ & _ & _ & _ & He). exact He.
Qed.

(** ** Relations between the configured values *)

(** C9.  The string conf.py binds [html_theme] to, 'sphinx_rtd_theme', is
    an element of the list it binds [extensions] to. *)
Theorem conf_py_theme_enabled :
  forall ns, exists ns' theme exts,
    exec ns conf_py = Done ns' /\
    ns' !! "html_theme" = Some (VStr theme) /\
    theme = "sphinx_rtd_theme" /\
    ns' !! "extensions" = Some (VList exts) /\
    In (VStr theme) exts.
Proof.
  intros ns. eexists _, _, _. split; [apply conf_py_exec|].
  split; [conf_lookup|]. split; [reflexivity|].
  split; [conf_lookup|]. simpl. tauto.
Qed.

(** C10.  The string bound to [release], '0.1', is a proper prefix of the
    string bound to [version], '0.1.0': [version] is [release] followed by
    '.0'. *)
Theorem conf_py_release_prefix_of_version :
  forall ns, exists ns' rel ver,
    exec ns conf_py = Done ns' /\
    ns' !! "release" = Some (VStr rel) /\ rel = "0.1" /\
    ns' !! "version" = Some (VStr ver) /\ ver = "0.1.0" /\
    String.prefix rel ver = true /\
    String.length rel < String.length ver /\
    ver = String.append rel ".0".
Proof.
  intros ns. eexists _, _, _. split; [apply conf_py_exec|].
  split; [conf_lookup|]. split; [reflexivity|].
  split; [conf_lookup|]. split; [reflexivity|].
  split; [reflexivity|]. split; [simpl; lia | reflexivity].
Qed.

(** * The module as a whole *)

(** ** Runs of bindings *)

Section bindings.

Lemma last_binding_unbound x bs :
  ~ In x (map fst bs) -> last_binding x bs = None.
Proof.
  intros Hx. destruct (last_binding x bs) as [v|] eqn:E; [|reflexivity].
  apply last_binding_In in E. exfalso. apply Hx.
  apply in_map_iff. exists (x, v). auto.
Qed.

Lemma last_binding_app x a b :
  last_binding x (a ++ b) =
    match last_binding x b with
    | Some v => Some v
    | None => last_binding x a
    end.
Proof.
  induction a as [|[y w] a IH]; simpl.
  - destruct (last_binding x b); reflexivity.
  - rewrite IH. destruct (last_binding x b); reflexivity.
Qed.

(** Among bindings of distinct names, every binding is the last one of
    its name. *)
Lemma last_binding_NoDup x v bs :
  NoDup (map fst bs) -> In (x, v) bs -> last_binding x bs = Some v.
Proof.
  induction bs as [|[y w] bs IH]; simpl; [tauto|].
  intros Hnd [Heq|Hin]; apply NoDup_cons in Hnd as [Hy Hnd].
  - injection Heq as -> ->.
    rewrite last_binding_unbound, String.eqb_refl; [reflexivity|].
    intros Hin. apply Hy, list_elem_of_In, Hin.
  - rewrite (IH Hnd Hin). reflexivity.
Qed.


(** Making the same bindings a second time changes nothing. *)
Lemma bind_all_idem bs (ns : namespace) :
  bind_all bs (bind_all bs ns) = bind_all bs ns.
Proof.
  apply map_eq. intros x. rewrite !lookup_bind_all.
  destruct (last_binding x bs); reflexivity.
Qed.

(** Bindings of distinct names can be made in any order. *)
Lemma bind_all_perm bs bs' (ns : namespace) :
  NoDup (map fst bs) -> Permutation bs bs' ->
  bind_all bs' ns = bind_all bs ns.
Proof.
  intros Hnd Hp. apply map_eq. intros x. rewrite !lookup_bind_all.
  assert (Hnd' : NoDup (map fst bs')).
  { apply NoDup_ListNoDup. apply NoDup_ListNoDup in Hnd.
    eapply Permutation_NoDup; [|exact Hnd]. apply Permutation_map, Hp. }
  destruct (last_binding x bs) as [v|] eqn:E.
  - apply last_binding_In in E.
    rewrite (last_binding_NoDup x v bs' Hnd'); [reflexivity|].
    eapply Permutation_in; eauto.
  - destruct (last_binding x bs') as [v'|] eqn:E'; [|reflexivity].
    apply last_binding_In in E'.
    apply (Permutation_in _ (Permutation_sym Hp)) in E'.
    rewrite (last_binding_NoDup x v' bs Hnd E') in E. discriminate.
Qed.

Lemma literal_bindings_app m1 m2 :
  literal_bindings (m1 ++ m2) = literal_bindings m1 ++ literal_bindings m2.
Proof. apply flat_map_app. Qed.

Lemma literal_module_app m1 m2 :
  literal_module (m1 ++ m2) = literal_module m1 && literal_module m2.
Proof. apply forallb_app. Qed.

Lemma literal_module_perm m m' :
  Permutation m m' -> literal_module m = true -> literal_module m' = true.
Proof.
  intros Hp Hm. unfold literal_module in *.
  rewrite forallb_forall in *. intros s Hs. apply Hm.
  eapply Permutation_in; [apply Permutation_sym, Hp | exact Hs].
Qed.

End bindings.

(** ** What the module leaves alone *)


(** ** Running the module again *)

(** X2.  Running conf.py a second time, in the namespace its first run
    produced, completes and changes nothing. *)
Theorem conf_py_idempotent :
  forall ns, exists ns',
    exec ns conf_py = Done ns' /\ exec ns' conf_py = Done ns'.
Proof.
  intros ns. eexists. split; [apply conf_py_exec|].
  rewrite conf_py_exec, bind_all_idem. reflexivity.
Qed.

(** ** Reordering and removing statements *)

(** X3.  The order of the statements of conf.py does not matter: the
    statements of the file taken in any other order give, in every
    namespace, the same outcome as the file. *)
Theorem conf_py_order_irrelevant m' :
  Permutation conf_py m' -> forall ns, exec ns m' = exec ns conf_py.
Proof.
  intros Hp ns.
  rewrite conf_py_exec.
  rewrite (exec_literal_module m' (literal_module_perm _ _ Hp conf_py_literal)).
  rewrite (bind_all_perm (literal_bindings conf_py) (literal_bindings m') ns);
    [reflexivity| |].
  - rewrite (literal_bindings_targets _ conf_py_literal).
    apply conf_py_targets_NoDup.
  - apply Permutation_flat_map, Hp.
Qed.

Lemma conf_py_order_irrelevant_witness :
  exec ∅ (SAssign "copyright" (EStr "2023, The Bazel Authors")
          :: SAssign "project" (EStr "rules_testing")
          :: skipn 2 conf_py)
  = exec ∅ conf_py.
Proof.
  apply conf_py_order_irrelevant.
  apply perm_swap.
Defined.

(** X4.  No setting depends on another: with any one statement taken out
    of conf.py, the rest still completes in every namespace, gives every
    other name the binding the whole file gives it, and leaves the target
    of the statement taken out as the namespace had it. *)
Theorem conf_py_statement_removal pre s post :
  conf_py = pre ++ s :: post ->
  forall ns, exists out out',
    exec ns conf_py = Done out /\ exec ns (pre ++ post) = Done out' /\
    (forall x, ~ In x (targets s) -> out' !! x = out !! x) /\
    (forall x, In x (targets s) -> out' !! x = ns !! x).
Proof.
  intros Hcut ns.
  pose proof conf_py_literal as Hlit.
  pose proof conf_py_targets_NoDup as Hnd.
  rewrite Hcut in Hlit, Hnd.
  change (s :: post) with ([s] ++ post) in Hlit, Hnd.
  rewrite !literal_module_app in Hlit.
  apply andb_prop in Hlit as [Hpre Hrest].
  apply andb_prop in Hrest as [Hs Hpost].
  rewrite !module_targets_app in Hnd.
  apply NoDup_app in Hnd as (_ & Hpre_rest & Hnd).
  apply NoDup_app in Hnd as (_ & Hs_post & _).
  assert (Hts : map fst (literal_bindings [s]) = targets s).
  { rewrite (literal_bindings_targets [s] Hs). apply app_nil_r. }
  exists (bind_all (literal_bindings conf_py) ns),
         (bind_all (literal_bindings (pre ++ post)) ns).
  split; [apply conf_py_exec|]. split.
  { apply exec_literal_module. rewrite literal_module_app, Hpre, Hpost.
    reflexivity. }
  rewrite Hcut. change (s :: post) with ([s] ++ post).
  split; intros x Hx; rewrite !lookup_bind_all, !literal_bindings_app,
    !last_binding_app.
  - rewrite (last_binding_unbound x (literal_bindings [s]));
      [|rewrite Hts; exact Hx].
    destruct (last_binding x (literal_bindings post)); reflexivity.
  - rewrite (last_binding_unbound x (literal_bindings post)),
      (last_binding_unbound x (literal_bindings pre)); [reflexivity| |].
    + rewrite (literal_bindings_targets _ Hpre). intros Hin.
      apply (Hpre_rest x); [apply list_elem_of_In, Hin|].
      apply list_elem_of_In, in_or_app. left.
      unfold module_targets. simpl. rewrite app_nil_r. exact Hx.
    + rewrite (literal_bindings_targets _ Hpost). intros Hin.
      apply (Hs_post x); [|apply list_elem_of_In, Hin].
      apply list_elem_of_In. unfold module_targets. simpl.
      rewrite app_nil_r. exact Hx.
Qed.

Lemma conf_py_statement_removal_witness :
  exists out out',
    exec ∅ conf_py = Done out /\ exec ∅ (skipn 1 conf_py) = Done out' /\
    (forall x, ~ In x ["project"] -> out' !! x = out !! x) /\
    (forall x, In x ["project"] -> out' !! x = (∅ : namespace) !! x).
Proof.
  apply (conf_py_statement_removal
           [] (SAssign "project" (EStr "rules_testing")) (skipn 1 conf_py)).
  reflexivity.
Defined.

(** X5.  Wherever conf.py is cut in two, the first part completes on its
    own, the second part completes in the namespace the first produced,
    the two runs together are the run of the file, and every name the
    first part binds has at the end the value the first part gave it. *)
Theorem conf_py_bindings_persist pre post :
  conf_py = pre ++ post ->
  forall ns, exists ns1 ns2,
    exec ns pre = Done ns1 /\ exec ns1 post = Done ns2 /\
    exec ns conf_py = Done ns2 /\
    forall x, In x (module_targets pre) ->
              is_Some (ns1 !! x) /\ ns2 !! x = ns1 !! x.
Proof.
  intros Hcut ns.
  pose proof conf_py_literal as Hlit.
  pose proof conf_py_targets_NoDup as Hnd.
  rewrite Hcut in Hlit, Hnd.
  rewrite literal_module_app in Hlit.
  apply andb_prop in Hlit as [Hpre Hpost].
  rewrite module_targets_app in Hnd.
  apply NoDup_app in Hnd as (_ & Hdisj & _).
  exists (bind_all (literal_bindings pre) ns),
         (bind_all (literal_bindings post)
                   (bind_all (literal_bindings pre) ns)).
  split; [apply exec_literal_module, Hpre|].
  split; [apply exec_literal_module, Hpost|]. split.
  - rewrite Hcut, exec_app, (exec_literal_module pre Hpre). simpl.
    apply exec_literal_module, Hpost.
  - intros x Hx. split.
    + rewrite lookup_bind_all.
      rewrite <- (literal_bindings_targets _ Hpre) in Hx.
      destruct (last_binding_bound _ _ Hx) as [v ->]. eauto.
    + rewrite (lookup_bind_all (literal_bindings post)).
      rewrite last_binding_unbound; [reflexivity|].
      rewrite (literal_bindings_targets _ Hpost). intros Hin.
      apply (Hdisj x); apply list_elem_of_In; assumption.
Qed.

Lemma conf_py_bindings_persist_witness :
  exists ns1 ns2 : namespace,
    exec ∅ (firstn 5 conf_py) = Done ns1 /\
    exec ns1 (skipn 5 conf_py) = Done ns2 /\
    exec ∅ conf_py = Done ns2 /\
    forall x, In x (module_targets (firstn 5 conf_py)) ->
              is_Some (ns1 !! x) /\ ns2 !! x = ns1 !! x.
Proof.
  apply (conf_py_bindings_persist (firstn 5 conf_py) (skipn 5 conf_py)).
  reflexivity.
Defined.
